(** * openapi_sqlalchemy: the model-factory layer

    A shallow embedding of [openapi_sqlalchemy/__init__.py]:
    [init_model_factory], the memoised callable it returns, and the two
    file-based entry points [init_json] and [init_yaml].

    Python objects that the module only passes around (the declarative
    base, the generated model classes) are abstract types; the functions it
    imports from elsewhere ([model_factory.model_factory],
    [declarative_base], the JSON and YAML parsers, the file system) are
    parameters of the development.  Exceptions are values of [exn];
    a computation either returns or raises. *)

From Stdlib Require Import ZArith Ascii String List.
From stdpp Require Import base option gmap strings list.

Set Warnings "-register-all".
Set Default Proof Using "Type".

Local Open Scope string_scope.

(** ** Python values of a parsed specification *)

(** What [json.load] / [yaml.load] produce for a document: the JSON data
    model, with dictionaries keyed by strings.  Floats are kept as a
    decimal mantissa and exponent; the module never computes with them. *)
Inductive value : Type :=
| VNone
| VBool (b : bool)
| VInt (z : Z)
| VFloat (mantissa exponent : Z)
| VStr (s : string)
| VList (l : list value)
| VDict (d : gmap string value).

Definition type_name (v : value) : string :=
  match v with
  | VNone => "NoneType"
  | VBool _ => "bool"
  | VInt _ => "int"
  | VFloat _ _ => "float"
  | VStr _ => "str"
  | VList _ => "list"
  | VDict _ => "dict"
  end.

(** ** Exceptions and results *)

Inductive exn : Type :=
| MalformedSpecificationError (msg : string)
| KeyError (key : string)
| TypeError (msg : string)
| AttributeError (msg : string)
| NameError (name : string)
| UnboundLocalError (name : string)
| ImportError (msg : string)
| OSError (filename : string)
| OtherError (cls msg : string).

Inductive result (A : Type) : Type :=
| Return (a : A)
| Raise (e : exn).
Arguments Return {A} a.
Arguments Raise {A} e.

Definition is_return {A} (r : result A) : bool :=
  match r with Return _ => true | Raise _ => false end.

(** ** Strings *)

(** [needle in haystack] on Python strings. *)
Fixpoint contains (needle haystack : string) : bool :=
  String.prefix needle haystack ||
  match haystack with
  | EmptyString => false
  | String _ rest => contains needle rest
  end.

Definition dquote : string := String "034"%char EmptyString.

(** ** The two operations the module applies to the specification *)

(** [key in container]: key membership on a dict, substring test on a
    str, element equality on a list, [TypeError] on anything else. *)
Definition py_in (key : string) (container : value) : result bool :=
  match container with
  | VDict d => Return (bool_decide (is_Some (d !! key)))
  | VStr s => Return (contains key s)
  | VList l =>
      Return (existsb (fun v => match v with
                                | VStr s => String.eqb s key
                                | _ => false
                                end) l)
  | _ => Raise (TypeError ("argument of type '" ++ type_name container
                           ++ "' is not iterable"))
  end.

(** [obj.get(key, default)]: only dicts have the method. *)
Definition py_get (obj : value) (key : string) (dflt : value) : result value :=
  match obj with
  | VDict d => Return (default dflt (d !! key))
  | _ => Raise (AttributeError ("'" ++ type_name obj
                                ++ "' object has no attribute 'get'"))
  end.

Definition components_required : string :=
  dquote ++ "components" ++ dquote ++ " is a required key in the specification.".

Definition schemas_required : string :=
  dquote ++ "schemas" ++ dquote
  ++ " is a required key in the components of the specification.".

Definition pyyaml_required : string :=
  "Using init_yaml requires the pyyaml package. Try `pip install pyyaml`.".

(** Names bound at module level by the imports, the class and the
    function definitions, and [__all__].  Neither this list nor Python's
    builtins bind [Loader]. *)
Definition module_globals : list string :=
  [ "functools"; "typing"; "typing_extensions"; "declarative_base";
    "exceptions"; "_model_factory"; "types"; "ModelFactory";
    "init_model_factory"; "init_json"; "init_yaml"; "__all__" ].

(** Sequencing of pure fallible steps. *)
Definition rbind {A B} (r : result A) (k : A -> result B) : result B :=
  match r with
  | Return a => k a
  | Raise e => Raise e
  end.

Notation "x <~ r ;; k" := (rbind r (fun x => k))
  (at level 100, r at next level, right associativity, only parsing).

Section OpenapiSqlalchemy.

(** The interpreter state outside this module (class registries of the
    declarative bases, object identities, ...). *)
Variable W : Type.
(** Declarative bases and generated model classes, as object references. *)
Variable Base Cls : Type.

(** [_model_factory.model_factory(name, schemas=..., base=...)]. *)
Variable model_factory : string -> value -> Base -> W -> result Cls * W.
(** [sqlalchemy.ext.declarative.declarative_base()]. *)
Variable declarative_base : W -> Base * W.

(** Whether [import yaml] succeeds, what [open] finds under a file name,
    and the two parsers applied to a file's contents.  [json_load] also
    receives the names of the extra keyword arguments of the call. *)
Variable yaml_installed : bool.
Variable files : string -> option string.
Variable yaml_load : string -> result value.
Variable json_load : string -> list string -> result value.

(** *** Observable effects *)

Inductive event : Type :=
| EvDeclarativeBase (b : Base)
| EvOpen (filename : string)
| EvClose (filename : string)
| EvModelFactory (name : string) (schemas : value) (base : Base).

Record World : Type := mkWorld { ext : W; trace : list event }.

Definition emit (ev : event) (w : World) : World :=
  {| ext := ext w; trace := trace w ++ [ev] |}.

(** The calls made to the model-building function, in order. *)
Definition invocations (t : list event) : list (string * value * Base) :=
  omap (fun ev => match ev with
                  | EvModelFactory n s b => Some (n, s, b)
                  | _ => None
                  end) t.

(** *** The factory object *)

(** The [functools.lru_cache(maxsize=None)] wrapper around the
    [functools.partial] that binds [schemas] and [base]: the two bound
    arguments and the cache dictionary, keyed by the [name] argument. *)
Record ModelFactory : Type := mkFactory {
  bound_schemas : value;
  bound_base : Base;
  cache : gmap string Cls
}.

Definition init_model_factory (base : Base) (spec : value)
  : result ModelFactory :=
  has_components <~ py_in "components" spec ;;
  if negb has_components
  then Raise (MalformedSpecificationError components_required)
  else
  components <~ py_get spec "components" (VDict ∅) ;;
  has_schemas <~ py_in "schemas" components ;;
  if negb has_schemas
  then Raise (MalformedSpecificationError schemas_required)
  else
  schemas <~ py_get components "schemas" (VDict ∅) ;;
  Return {| bound_schemas := schemas; bound_base := base; cache := ∅ |}.

(** The event left by calling the model-building function through [f]. *)
Definition invocation_of (f : ModelFactory) (name : string) : event :=
  EvModelFactory name (bound_schemas f) (bound_base f).

(** [f] after [cache[name] = c]. *)
Definition remember (f : ModelFactory) (name : string) (c : Cls)
  : ModelFactory :=
  {| bound_schemas := bound_schemas f;
     bound_base := bound_base f;
     cache := <[name := c]> (cache f) |}.

(** [functools.partial(model_factory, schemas=schemas, base=base)]. *)
Definition bound_model_factories (f : ModelFactory) (name : string)
    (w : World) : result Cls * World :=
  let '(r, x) := model_factory name (bound_schemas f) (bound_base f) (ext w) in
  (r, {| ext := x; trace := trace w ++ [invocation_of f name] |}).

(** One call of the cached wrapper: a hit returns the stored object, a
    miss calls through and stores the result only when the call returns. *)
Definition cached_model_factories (f : ModelFactory) (name : string)
    (w : World) : result Cls * ModelFactory * World :=
  match cache f !! name with
  | Some c => (Return c, f, w)
  | None =>
      let '(r, w') := bound_model_factories f name w in
      match r with
      | Return c => (Return c, remember f name c, w')
      | Raise e => (Raise e, f, w')
      end
  end.

(** A caller using the factory for a sequence of names, going on after
    a call that raised. *)
Fixpoint call_each (f : ModelFactory) (names : list string) (w : World)
  : list (result Cls) * ModelFactory * World :=
  match names with
  | [] => ([], f, w)
  | n :: ns =>
      let '(r, f1, w1) := cached_model_factories f n w in
      let '(rs, f2, w2) := call_each f1 ns w1 in
      (r :: rs, f2, w2)
  end.

(** *** Effectful steps of the file-based entry points *)

Definition M (A : Type) : Type := World -> result A * World.

Definition ret {A} (a : A) : M A := fun w => (Return a, w).
Definition raise {A} (e : exn) : M A := fun w => (Raise e, w).
Definition lift {A} (r : result A) : M A := fun w => (r, w).
Definition bind {A B} (m : M A) (k : A -> M B) : M B :=
  fun w =>
    match m w with
    | (Return a, w') => k a w'
    | (Raise e, w') => (Raise e, w')
    end.

Notation "x <- m ;; k" := (bind m (fun x => k))
  (at level 100, m at next level, right associativity, only parsing).

Definition call_declarative_base : M Base :=
  fun w =>
    let '(b, x) := declarative_base (ext w) in
    (Return b, {| ext := x; trace := trace w ++ [EvDeclarativeBase b] |}).

(** Reading a name that the function never assigns: module globals,
    then builtins, then [NameError]. *)
Definition load_global (name : string) : M unit :=
  if bool_decide (name ∈ module_globals)
  then ret tt
  else raise (NameError name).

(** Reading a local variable that an earlier branch may have left
    unassigned. *)
Definition load_local {A} (name : string) (slot : option A) : M A :=
  match slot with
  | Some a => ret a
  | None => raise (UnboundLocalError name)
  end.

(** [with open(filename) as spec_file: body]: the file is closed on the
    way out, whether the body returns or raises. *)
Definition with_open {A} (filename : string) (body : string -> M A) : M A :=
  fun w =>
    let w1 := emit (EvOpen filename) w in
    match files filename with
    | None => (Raise (OSError filename), w1)
    | Some contents =>
        let '(r, w2) := body contents w1 in
        (r, emit (EvClose filename) w2)
    end.

(** [if base is None: Base = declarative_base()]: the local [Base] is
    assigned in that branch only. *)
Definition assign_Base_if_none (base : option Base) : M (option Base) :=
  match base with
  | None => b <- call_declarative_base ;; ret (Some b)
  | Some _ => ret None
  end.

(** The world in which the [with] statement is entered. *)
Definition after_assign (base : option Base) (w : World) : World :=
  (assign_Base_if_none base w).2.

Definition init_json (spec_filename : string) (base : option Base)
  : M (Base * ModelFactory) :=
  local_Base <- assign_Base_if_none base ;;
  spec <- with_open spec_filename (fun contents =>
            _ <- load_global "Loader" ;;
            lift (json_load contents ["Loader"])) ;;
  the_base <- load_local "Base" local_Base ;;
  factory <- lift (init_model_factory the_base spec) ;;
  ret (the_base, factory).

Definition init_yaml (spec_filename : string) (base : option Base)
  : M (Base * ModelFactory) :=
  _ <- (if yaml_installed then ret tt
        else raise (ImportError pyyaml_required)) ;;
  local_Base <- assign_Base_if_none base ;;
  spec <- with_open spec_filename (fun contents =>
            lift (yaml_load contents)) ;;
  the_base <- load_local "Base" local_Base ;;
  factory <- lift (init_model_factory the_base spec) ;;
  ret (the_base, factory).

End OpenapiSqlalchemy.

Arguments EvDeclarativeBase {Base} b.
Arguments EvOpen {Base} filename.
Arguments EvClose {Base} filename.
Arguments EvModelFactory {Base} name schemas base.
Arguments mkWorld {W Base} ext trace.
Arguments ext {W Base} _.
Arguments trace {W Base} _.
Arguments emit {W Base} ev w.
Arguments invocations {Base} t.
Arguments mkFactory {Base Cls} bound_schemas bound_base cache.
Arguments bound_schemas {Base Cls} _.
Arguments bound_base {Base Cls} _.
Arguments cache {Base Cls} _.
Arguments init_model_factory {Base Cls} base spec.
Arguments invocation_of {Base Cls} f name.
Arguments remember {Base Cls} f name c.
Arguments bound_model_factories {W Base Cls} model_factory f name w.
Arguments cached_model_factories {W Base Cls} model_factory f name w.
Arguments call_each {W Base Cls} model_factory f names w.
Arguments ret {W Base A} a.
Arguments raise {W Base A} e.
Arguments lift {W Base A} r.
Arguments bind {W Base A B} m k.
Arguments call_declarative_base {W Base} declarative_base.
Arguments load_global {W Base} name.
Arguments load_local {W Base A} name slot.
Arguments with_open {W Base} files {A} filename body.
Arguments assign_Base_if_none {W Base} declarative_base base.
Arguments after_assign {W Base} declarative_base base w.
Arguments init_json {W Base Cls} declarative_base files json_load
  spec_filename base.
Arguments init_yaml {W Base Cls} declarative_base yaml_installed files
  yaml_load spec_filename base.

(** Every cached class was once returned by the model-building function
    for that name with the bound schemas and base. *)
Definition cache_sound {W Base Cls : Type}
    (model_factory : string -> value -> Base -> W -> result Cls * W)
    (f : ModelFactory Base Cls) : Prop :=
  forall (name : string) (c : Cls),
    cache f !! name = Some c ->
    exists x x',
      model_factory name (bound_schemas f) (bound_base f) x = (Return c, x').

(** How often [name] was passed to the model-building function in [t]. *)
Definition invoked {Base : Type} (name : string) (t : list (event Base))
  : nat :=
  length (List.filter (fun i => String.eqb i.1.1 name) (invocations t)).

(** How many of the calls with [name] raised, in a run that answered the
    calls [names] with [rs]. *)
Fixpoint raised_for {A} (name : string) (names : list string)
    (rs : list (result A)) : nat :=
  match names, rs with
  | m :: ms, r :: rs' =>
      (if String.eqb m name && negb (is_return r) then 1 else 0)
      + raised_for name ms rs'
  | _, _ => 0
  end.

(** 1 when the cache of [f] has an entry for [name], 0 otherwise. *)
Definition holds {Base Cls : Type} (f : ModelFactory Base Cls)
    (name : string) : nat :=
  match cache f !! name with
  | Some _ => 1
  | None => 0
  end.

(** How many of the calls of a run raised. *)
Definition raises {A} (rs : list (result A)) : nat :=
  length (List.filter (fun r => negb (is_return r)) rs).

(** Values on which [in] raises [TypeError]: everything but dictionaries,
    strings and lists. *)
Definition is_scalar (v : value) : bool :=
  match v with
  | VNone | VBool _ | VInt _ | VFloat _ _ => true
  | VStr _ | VList _ | VDict _ => false
  end.

(** ** A concrete interpreter, for running the model *)

Module Demo.

(** Object references are numbers; the state is the next free one. *)
Definition model_factory (name : string) (schemas : value) (base : nat)
    (next : nat) : result nat * nat :=
  match schemas with
  | VDict d =>
      match d !! name with
      | Some _ => (Return next, S next)
      | None => (Raise (OtherError "SchemaNotFoundError" name), next)
      end
  | _ => (Raise (TypeError "schemas is not a dict"), next)
  end.

(** A stand-in that returns a new object on every call, like the
    [MagicMock] of the integration tests. *)
Definition mocked_model_factory (name : string) (schemas : value)
    (base : nat) (next : nat) : result nat * nat :=
  (Return next, S next).

Definition declarative_base (next : nat) : nat * nat := (next, S next).

Definition schemas : value :=
  VDict (<["Employee" := VDict ∅]> (<["Division" := VDict ∅]> ∅)).

Definition spec : value :=
  VDict (<["components" := VDict (<["schemas" := schemas]> ∅)]> ∅).

Definition empty_schemas_spec : value :=
  VDict (<["components" := VDict (<["schemas" := VDict ∅]> ∅)]> ∅).

Definition files (filename : string) : option string :=
  if String.eqb filename "spec.yaml" then Some "components: ..."
  else if String.eqb filename "spec.json" then Some "{...}"
  else None.

Definition yaml_load (contents : string) : result value := Return spec.

Definition json_load (contents : string) (kwargs : list string)
  : result value :=
  match kwargs with
  | [] => Return spec
  | k :: _ =>
      Raise (TypeError ("__init__() got an unexpected keyword argument '"
                        ++ k ++ "'"))
  end.

Definition w0 : World nat nat := mkWorld 100 [].

Definition factory0 : ModelFactory nat nat := mkFactory schemas 7 ∅.

End Demo.

(** Further cases for running the file-based entry points. *)
Module Cases.

(** A parser that rejects every document. *)
Definition failing_yaml_load (contents : string) : result value :=
  Raise (OtherError "YAMLError" "could not parse").

(** A document whose [components] section is left empty. *)
Definition null_components : gmap string value :=
  <["components" := VNone]> ∅.

(** A document whose [components] is a list of names. *)
Definition list_components : gmap string value :=
  <["components" := VList [VStr "schemas"]]> ∅.

(** A model-building function that fails for one name only. *)
Definition picky_model_factory (name : string) (schemas : value)
    (base : nat) (next : nat) : result nat * nat :=
  if String.eqb name "Broken"
  then (Raise (OtherError "TypeMissingError" name), next)
  else (Return next, S next).

(** A specification that has a schema for the name on which
    [picky_model_factory] fails. *)
Definition broken_schemas : value :=
  VDict (<["Broken" := VDict ∅]> (<["Good" := VDict ∅]> ∅)).

Definition broken_spec : value :=
  VDict (<["components" := VDict (<["schemas" := broken_schemas]> ∅)]> ∅).

Definition broken_factory : ModelFactory nat nat :=
  mkFactory broken_schemas 7 ∅.

(** A run in which one name keeps failing. *)
Definition names : list string := ["A"; "Broken"; "A"; "Broken"; "B"].

Definition run : list (result nat) * ModelFactory nat nat * World nat nat :=
  call_each picky_model_factory Demo.factory0 names Demo.w0.

(** The same run, split after its first call. *)
Definition first : result nat * ModelFactory nat nat * World nat nat :=
  cached_model_factories picky_model_factory Demo.factory0 "A" Demo.w0.

Definition rest : list (result nat) * ModelFactory nat nat * World nat nat :=
  call_each picky_model_factory first.1.2 ["Broken"; "A"; "Broken"; "B"]
    first.2.

(** The calls of the two cache tests, one after the other. *)
Definition mocked_run
  : list (result nat) * ModelFactory nat nat * World nat nat :=
  call_each Demo.mocked_model_factory (mkFactory (VDict ∅) 7 ∅)
    ["table 1"; "table 2"; "table 1"; "table 1"] Demo.w0.

End Cases.

(** ** Properties *)

Section Properties.

Variables W Base Cls : Type.
Variable model_factory : string -> value -> Base -> W -> result Cls * W.

Local Abbreviation call := (cached_model_factories model_factory).
Local Abbreviation calls := (call_each model_factory).
Local Abbreviation sound := (cache_sound model_factory).
Local Abbreviation factory := (ModelFactory Base Cls).
Local Abbreviation world := (World W Base).

Local Open Scope list_scope.

Implicit Types (f : factory) (w : world) (name n : string)
  (d : gmap string value) (base : Base).

(** *** The structural checks *)

Lemma components_required_names_key :
  contains "components" components_required = true.
Proof. reflexivity. Qed.

Lemma schemas_required_names_key :
  contains "schemas" schemas_required = true.
Proof. reflexivity. Qed.

Lemma required_messages_differ : schemas_required <> components_required.
Proof. apply String.eqb_neq. reflexivity. Qed.

Lemma init_model_factory_dict base d :
  init_model_factory (Cls := Cls) base (VDict d) =
  match d !! "components" with
  | None => Raise (MalformedSpecificationError components_required)
  | Some components =>
      has_schemas <~ py_in "schemas" components ;;
      if negb has_schemas
      then Raise (MalformedSpecificationError schemas_required)
      else
        schemas <~ py_get components "schemas" (VDict ∅) ;;
        Return (mkFactory schemas base ∅)
  end.
Proof.
  unfold init_model_factory. cbn [py_in rbind py_get].
  destruct (d !! "components") as [components|] eqn:E.
  - rewrite bool_decide_eq_true_2 by eauto. reflexivity.
  - rewrite bool_decide_eq_false_2 by (intros [? ?]; discriminate).
    reflexivity.
Qed.

(** C3. A specification dictionary without the key "components" makes
    [init_model_factory] raise [MalformedSpecificationError] with the
    message that names "components"; the error is not a [KeyError], and
    no factory is returned. *)
Theorem missing_components_raises base d :
  d !! "components" = None ->
  init_model_factory (Cls := Cls) base (VDict d)
    = Raise (MalformedSpecificationError components_required)
  /\ contains "components" components_required = true
  /\ (forall key, init_model_factory (Cls := Cls) base (VDict d)
                  <> Raise (KeyError key))
  /\ (forall f, init_model_factory base (VDict d) <> Return f).
Proof.
  intros Hnone. rewrite init_model_factory_dict, Hnone.
  split; [reflexivity|]. split; [apply components_required_names_key|].
  split; intros ?; discriminate.
Qed.

(** C4 (amended). When the value under "components" admits the test
    ["schemas" in components] and the test fails (a dictionary without
    the key, or a string or list that does not hold it),
    [init_model_factory] raises [MalformedSpecificationError] with a
    message that names "schemas" and differs from the message for a
    missing "components". *)
Theorem lacking_schemas_raises base d c :
  d !! "components" = Some c ->
  py_in "schemas" c = Return false ->
  init_model_factory (Cls := Cls) base (VDict d)
    = Raise (MalformedSpecificationError schemas_required)
  /\ contains "schemas" schemas_required = true
  /\ schemas_required <> components_required.
Proof.
  intros Hc Hin. rewrite init_model_factory_dict, Hc.
  unfold rbind. rewrite Hin.
  split; [reflexivity|].
  split; [apply schemas_required_names_key | apply required_messages_differ].
Qed.

(** C5. When the key path components.schemas is present,
    [init_model_factory] returns a factory bound to that [schemas] value
    (empty or not) and to [base], with an empty cache; called with a
    name, the factory yields what the model-building function yields
    for that name, the bound schemas and the bound base. *)
Theorem init_model_factory_succeeds base d components schemas :
  d !! "components" = Some (VDict components) ->
  components !! "schemas" = Some schemas ->
  exists f,
    init_model_factory base (VDict d) = Return f
    /\ bound_schemas f = schemas /\ bound_base f = base /\ cache f = ∅
    /\ forall name w,
         (call f name w).1.1
         = (model_factory name schemas base (ext w)).1.
Proof.
  intros Hc Hs. exists (mkFactory schemas base ∅).
  rewrite init_model_factory_dict, Hc. cbn [py_in rbind py_get].
  rewrite bool_decide_eq_true_2 by eauto. rewrite Hs.
  repeat split; try reflexivity.
  intros name w. unfold cached_model_factories, bound_model_factories.
  cbn [cache bound_schemas bound_base]. rewrite lookup_empty.
  destruct (model_factory name schemas base (ext w)) as [[c|e] x];
    reflexivity.
Qed.

(** *** One call of the cached factory *)

Lemma call_hit f name w c :
  cache f !! name = Some c -> call f name w = (Return c, f, w).
Proof. intros H. unfold cached_model_factories. rewrite H. reflexivity. Qed.

Lemma call_miss_return f name w c x :
  cache f !! name = None ->
  model_factory name (bound_schemas f) (bound_base f) (ext w)
    = (Return c, x) ->
  call f name w
  = (Return c, remember f name c,
     mkWorld x (trace w ++ [invocation_of f name])).
Proof.
  intros Hmiss Hbuild.
  unfold cached_model_factories, bound_model_factories.
  rewrite Hmiss, Hbuild. reflexivity.
Qed.

Lemma call_miss_raise f name w e x :
  cache f !! name = None ->
  model_factory name (bound_schemas f) (bound_base f) (ext w)
    = (Raise e, x) ->
  call f name w
  = (Raise e, f, mkWorld x (trace w ++ [invocation_of f name])).
Proof.
  intros Hmiss Hbuild.
  unfold cached_model_factories, bound_model_factories.
  rewrite Hmiss, Hbuild. reflexivity.
Qed.

(** A call that raises went through to the model-building function. *)
Lemma call_raise_inv f name w e f1 w1 :
  call f name w = (Raise e, f1, w1) ->
  cache f !! name = None
  /\ f1 = f
  /\ exists x,
       model_factory name (bound_schemas f) (bound_base f) (ext w)
         = (Raise e, x)
       /\ w1 = mkWorld x (trace w ++ [invocation_of f name]).
Proof.
  unfold cached_model_factories, bound_model_factories.
  destruct (cache f !! name) as [c|]; [intros [=]|].
  destruct (model_factory name (bound_schemas f) (bound_base f) (ext w))
    as [[c|e'] x]; intros [= <- <- <-]; eauto.
Qed.

(** A miss extends the trace by exactly one invocation, whatever the
    outcome. *)
Lemma call_miss_trace f name w r f1 w1 :
  cache f !! name = None ->
  call f name w = (r, f1, w1) ->
  trace w1 = trace w ++ [invocation_of f name]
  /\ bound_schemas f1 = bound_schemas f
  /\ bound_base f1 = bound_base f
  /\ forall other, other <> name -> cache f1 !! other = cache f !! other.
Proof.
  intros Hmiss.
  unfold cached_model_factories, bound_model_factories. rewrite Hmiss.
  destruct (model_factory name (bound_schemas f) (bound_base f) (ext w))
    as [[c|e] x]; intros [= <- <- <-]; cbn; repeat split; try reflexivity.
  intros other Hne. by rewrite lookup_insert_ne.
Qed.

Lemma init_model_factory_fresh base spec f :
  init_model_factory base spec = Return f ->
  cache f = ∅ /\ bound_base f = base.
Proof.
  unfold init_model_factory, rbind.
  destruct (py_in "components" spec) as [[|]|]; cbn; try discriminate.
  destruct (py_get spec "components" (VDict ∅)) as [cs|]; try discriminate.
  destruct (py_in "schemas" cs) as [[|]|]; cbn; try discriminate.
  destruct (py_get cs "schemas" (VDict ∅)); try discriminate.
  intros [= <-]. split; reflexivity.
Qed.

Lemma invocations_snoc (t : list (event Base)) name schemas base :
  invocations (t ++ [EvModelFactory name schemas base])
  = invocations t ++ [(name, schemas, base)].
Proof. unfold invocations. rewrite omap_app. reflexivity. Qed.

(** On a miss the call yields what the model-building function yields
    in the current state, and moves to the state it leaves. *)
Lemma call_miss_result f name w r f1 w1 :
  cache f !! name = None ->
  call f name w = (r, f1, w1) ->
  model_factory name (bound_schemas f) (bound_base f) (ext w) = (r, ext w1).
Proof.
  intros Hmiss.
  unfold cached_model_factories, bound_model_factories. rewrite Hmiss.
  destruct (model_factory name (bound_schemas f) (bound_base f) (ext w))
    as [[c|e] x]; intros [= <- <- <-]; reflexivity.
Qed.

(** C2. From the factory returned by [init_model_factory], a call with
    [n1] followed by a call with a different [n2] invokes the
    model-building function exactly twice: first with [n1], the bound
    schemas and base in the state of the first call, then with [n2], the
    same schemas and base in the state the first invocation left.  Each
    call yields what its invocation yielded, and the trace gains these
    two invocations and nothing else.  This holds for all names, those
    present in the schemas included, and whatever the invocations
    return. *)
Theorem distinct_names_two_invocations
    base spec f n1 n2 w r1 f1 w1 r2 f2 w2 :
  init_model_factory base spec = Return f ->
  n1 <> n2 ->
  call f n1 w = (r1, f1, w1) ->
  call f1 n2 w1 = (r2, f2, w2) ->
  trace w2 = trace w ++ [EvModelFactory n1 (bound_schemas f) base;
                         EvModelFactory n2 (bound_schemas f) base]
  /\ invocations (trace w2)
     = invocations (trace w) ++ [(n1, bound_schemas f, base);
                                 (n2, bound_schemas f, base)]
  /\ model_factory n1 (bound_schemas f) base (ext w) = (r1, ext w1)
  /\ model_factory n2 (bound_schemas f) base (ext w1) = (r2, ext w2).
Proof.
  intros Hinit Hne H1 H2.
  destruct (init_model_factory_fresh _ _ _ Hinit) as [Hempty Hbase].
  assert (Hmiss1 : cache f !! n1 = None) by (rewrite Hempty; apply lookup_empty).
  destruct (call_miss_trace _ _ _ _ _ _ Hmiss1 H1) as (Ht1 & Hs1 & Hb1 & Hc1).
  assert (Hmiss2 : cache f1 !! n2 = None).
  { rewrite Hc1 by congruence. rewrite Hempty. apply lookup_empty. }
  destruct (call_miss_trace _ _ _ _ _ _ Hmiss2 H2) as (Ht2 & _ & _ & _).
  pose proof (call_miss_result _ _ _ _ _ _ Hmiss1 H1) as Hr1.
  pose proof (call_miss_result _ _ _ _ _ _ Hmiss2 H2) as Hr2.
  rewrite Hbase in Hr1. rewrite Hs1, Hb1, Hbase in Hr2.
  assert (Ht : trace w2 = trace w ++ [EvModelFactory n1 (bound_schemas f) base;
                                      EvModelFactory n2 (bound_schemas f) base]).
  { rewrite Ht2, Ht1. unfold invocation_of. rewrite Hs1, Hb1, Hbase.
    rewrite <- app_assoc. reflexivity. }
  split; [exact Ht|].
  split; [|split; [exact Hr1 | exact Hr2]].
  rewrite Ht.
  change [EvModelFactory n1 (bound_schemas f) base;
          EvModelFactory n2 (bound_schemas f) base]
    with ([EvModelFactory n1 (bound_schemas f) base]
          ++ [EvModelFactory n2 (bound_schemas f) base]).
  rewrite app_assoc, !invocations_snoc, <- app_assoc. reflexivity.
Qed.

(** *** States of a factory during its lifetime *)

Lemma call_bound f name w r f1 w1 :
  call f name w = (r, f1, w1) ->
  bound_schemas f1 = bound_schemas f /\ bound_base f1 = bound_base f.
Proof.
  unfold cached_model_factories, bound_model_factories.
  destruct (cache f !! name) as [c|]; [intros [= <- <- <-]; done|].
  destruct (model_factory name (bound_schemas f) (bound_base f) (ext w))
    as [[c|e] x]; intros [= <- <- <-]; done.
Qed.

Lemma call_cache_sound f name w r f1 w1 :
  sound f -> call f name w = (r, f1, w1) -> sound f1.
Proof.
  intros Hsound. unfold cached_model_factories, bound_model_factories.
  destruct (cache f !! name) as [c|] eqn:Hc; [intros [= <- <- <-]; done|].
  destruct (model_factory name (bound_schemas f) (bound_base f) (ext w))
    as [[c|e] x] eqn:Hb; intros [= <- <- <-]; [|done].
  intros other c'. cbn. rewrite lookup_insert.
  case_decide as Heq; [|by apply Hsound].
  intros [= <-]. subst other. eauto.
Qed.

Lemma call_each_lifetime f names w rs f1 w1 :
  sound f -> calls f names w = (rs, f1, w1) ->
  sound f1
  /\ bound_schemas f1 = bound_schemas f /\ bound_base f1 = bound_base f.
Proof.
  revert f w rs f1 w1.
  induction names as [|n ns IH]; intros f w rs f1 w1 Hsound; cbn.
  - intros [= <- <- <-]. done.
  - destruct (call f n w) as [[r fa] wa] eqn:Hcall.
    destruct (calls fa ns wa) as [[rs' fb] wb] eqn:Hrest.
    intros [= <- <- <-].
    destruct (call_bound _ _ _ _ _ _ Hcall) as [Hs Hb].
    destruct (IH _ _ _ _ _ (call_cache_sound _ _ _ _ _ _ Hsound Hcall) Hrest)
      as (? & Hs' & Hb').
    split; [done|]. split; congruence.
Qed.

Lemma fresh_cache_sound base spec f :
  init_model_factory base spec = Return f -> sound f.
Proof.
  intros Hinit name c.
  destruct (init_model_factory_fresh _ _ _ Hinit) as [-> _].
  rewrite lookup_empty. discriminate.
Qed.

(** C7. Take a factory returned by [init_model_factory], in any state
    reached by earlier calls, and a name for which the model-building
    function raises.  A call with that name invokes the function once
    and raises the very exception the function raised; the factory is
    left as it was. *)
Theorem collaborator_error_propagates
    base spec f0 names w0 rs f w name :
  init_model_factory base spec = Return f0 ->
  (forall x, is_return (model_factory name (bound_schemas f0) base x).1
             = false) ->
  calls f0 names w0 = (rs, f, w) ->
  exists e x,
    model_factory name (bound_schemas f0) base (ext w) = (Raise e, x)
    /\ call f name w
       = (Raise e, f,
          mkWorld x (trace w ++ [EvModelFactory name (bound_schemas f0) base])).
Proof.
  intros Hinit Hraises Hlife.
  destruct (init_model_factory_fresh _ _ _ Hinit) as [_ Hbase].
  destruct (call_each_lifetime _ _ _ _ _ _ (fresh_cache_sound _ _ _ Hinit) Hlife)
    as (Hsound & Hs & Hb).
  rewrite Hbase in Hb.
  assert (Hmiss : cache f !! name = None).
  { destruct (cache f !! name) as [c|] eqn:Hc; [|done].
    destruct (Hsound _ _ Hc) as (x & x' & Hx).
    specialize (Hraises x). rewrite <- Hs, <- Hb, Hx in Hraises.
    discriminate. }
  destruct (model_factory name (bound_schemas f0) base (ext w))
    as [[c|e] x] eqn:Hbuild.
  { specialize (Hraises (ext w)). rewrite Hbuild in Hraises. discriminate. }
  exists e, x. split; [reflexivity|].
  rewrite <- Hs, <- Hb in Hbuild.
  rewrite (call_miss_raise _ _ _ _ _ Hmiss Hbuild).
  unfold invocation_of. rewrite Hs, Hb. reflexivity.
Qed.

(** C9. When a call with [n] raises, the factory is unchanged and holds
    no entry for [n]; the next call with [n] invokes the model-building
    function again and yields whatever that second invocation yields. *)
Theorem failed_call_not_cached f n w e f1 w1 r2 f2 w2 :
  call f n w = (Raise e, f1, w1) ->
  call f1 n w1 = (r2, f2, w2) ->
  f1 = f
  /\ cache f1 !! n = None
  /\ trace w1 = trace w ++ [invocation_of f n]
  /\ trace w2 = trace w ++ [invocation_of f n; invocation_of f n]
  /\ r2 = (model_factory n (bound_schemas f) (bound_base f) (ext w1)).1.
Proof.
  intros H1 H2.
  destruct (call_raise_inv _ _ _ _ _ _ H1) as (Hmiss & -> & x & Hx & ->).
  split; [reflexivity|]. split; [exact Hmiss|]. split; [reflexivity|].
  revert H2. unfold cached_model_factories, bound_model_factories.
  rewrite Hmiss. cbn [ext trace].
  destruct (model_factory n (bound_schemas f) (bound_base f) x)
    as [[c|e'] x']; intros [= <- <- <-]; cbn [trace];
    rewrite <- app_assoc; done.
Qed.

End Properties.

Section FileEntryPoints.

Variables W Base Cls : Type.
Variable declarative_base : W -> Base * W.
Variable files : string -> option string.
Variable yaml_load : string -> result value.
Variable json_load : string -> list string -> result value.

Local Abbreviation world := (World W Base).
Local Abbreviation json :=
  (init_json (Cls := Cls) declarative_base files json_load).
Local Abbreviation yaml :=
  (init_yaml (Cls := Cls) declarative_base).
Local Abbreviation after_assign := (after_assign declarative_base).

Local Open Scope list_scope.

Implicit Types (w : world) (base : option Base) (spec_filename : string).

Lemma Loader_is_undefined w :
  load_global "Loader" w = (Raise (NameError "Loader"), w).
Proof. reflexivity. Qed.

Lemma assign_Base_supplied (b : Base) w :
  assign_Base_if_none declarative_base (Some b) w = (Return None, w).
Proof. reflexivity. Qed.

Lemma assign_Base_returns base w :
  exists slot,
    assign_Base_if_none declarative_base base w
    = (Return slot, after_assign base w).
Proof.
  unfold after_assign. destruct base as [b|]; cbn; [by eexists|].
  unfold bind, call_declarative_base.
  destruct (declarative_base (ext w)) as [b x]. by eexists.
Qed.

(** What [init_json] does for every file name, base and world. *)
Lemma init_json_outcome spec_filename base w :
  json spec_filename base w
  = match files spec_filename with
    | None =>
        (Raise (OSError spec_filename),
         emit (EvOpen spec_filename) (after_assign base w))
    | Some _ =>
        (Raise (NameError "Loader"),
         emit (EvClose spec_filename)
           (emit (EvOpen spec_filename) (after_assign base w)))
    end.
Proof.
  unfold init_json.
  destruct (assign_Base_returns base w) as [slot Hslot].
  unfold bind at 1. rewrite Hslot.
  unfold bind at 1. unfold with_open.
  destruct (files spec_filename) as [contents|]; reflexivity.
Qed.

(** What [init_yaml] does when PyYAML is installed and a base is
    supplied. *)
Lemma init_yaml_supplied_base spec_filename (b : Base) w :
  yaml true files yaml_load spec_filename (Some b) w
  = match files spec_filename with
    | None =>
        (Raise (OSError spec_filename), emit (EvOpen spec_filename) w)
    | Some contents =>
        (match yaml_load contents with
         | Return _ => Raise (UnboundLocalError "Base")
         | Raise e => Raise e
         end,
         emit (EvClose spec_filename) (emit (EvOpen spec_filename) w))
    end.
Proof.
  unfold init_yaml, bind, with_open, lift, ret. cbn.
  destruct (files spec_filename) as [contents|]; [|reflexivity].
  destruct (yaml_load contents) as [spec|e]; reflexivity.
Qed.

Lemma init_model_factory_raises (b : Base) spec e :
  init_model_factory (Cls := Cls) b spec = Raise e ->
  (exists msg, e = MalformedSpecificationError msg)
  \/ (exists msg, e = TypeError msg)
  \/ (exists msg, e = AttributeError msg).
Proof.
  unfold init_model_factory, rbind.
  destruct (py_in "components" spec) as [[|]|e1] eqn:Hin; cbn.
  - destruct (py_get spec "components" (VDict ∅)) as [cs|e2] eqn:Hget.
    + destruct (py_in "schemas" cs) as [[|]|e3] eqn:Hin2; cbn.
      * destruct (py_get cs "schemas" (VDict ∅)) as [ss|e4] eqn:Hget2;
          [discriminate|].
        intros [= <-]. destruct cs; cbn in Hget2; try discriminate;
          injection Hget2 as <-; eauto.
      * intros [= <-]. eauto.
      * intros [= <-]. destruct cs; cbn in Hin2; try discriminate;
          injection Hin2 as <-; eauto.
    + intros [= <-]. destruct spec; cbn in Hget; try discriminate;
        injection Hget as <-; eauto.
  - intros [= <-]. eauto.
  - intros [= <-]. destruct spec; cbn in Hin; try discriminate;
      injection Hin as <-; eauto.
Qed.

(** C8. Without PyYAML, [init_yaml] raises [ImportError] with the
    message that says how to install it, for every file name and base,
    and leaves the world untouched: no base is created and no file is
    opened.  Neither [init_json] nor [init_model_factory] ever raises an
    [ImportError]. *)
Theorem init_yaml_requires_pyyaml spec_filename base w :
  yaml false files yaml_load spec_filename base w
    = (Raise (ImportError pyyaml_required), w)
  /\ contains "pip install pyyaml" pyyaml_required = true
  /\ (forall msg, (json spec_filename base w).1 <> Raise (ImportError msg))
  /\ (forall (b : Base) spec msg,
        init_model_factory (Cls := Cls) b spec <> Raise (ImportError msg)).
Proof.
  split; [reflexivity|]. split; [reflexivity|]. split.
  - intros msg. rewrite init_json_outcome.
    destruct (files spec_filename); discriminate.
  - intros b spec msg Hraise.
    destruct (init_model_factory_raises _ _ _ Hraise)
      as [[? ?] | [[? ?] | [? ?]]]; discriminate.
Qed.

(** C10. [init_json] returns for no file name, base and world.  It
    raises [OSError] when the file cannot be opened and [NameError] for
    [Loader] otherwise, because the module binds no such name; and when
    a base is supplied the local [Base] is never assigned, so that
    reading it raises [UnboundLocalError]. *)
Theorem init_json_never_returns spec_filename base w :
  (forall p, (json spec_filename base w).1 <> Return p)
  /\ (json spec_filename base w).1
     = match files spec_filename with
       | None => Raise (OSError spec_filename)
       | Some _ => Raise (NameError "Loader")
       end
  /\ load_global "Loader" w = (Raise (NameError "Loader"), w)
  /\ (forall b : Base,
        assign_Base_if_none declarative_base (Some b) w = (Return None, w))
  /\ load_local (A := Base) "Base" None w
     = (Raise (UnboundLocalError "Base"), w).
Proof.
  rewrite init_json_outcome.
  split; [intros p; destruct (files spec_filename); discriminate|].
  split; [destruct (files spec_filename); reflexivity|].
  repeat split.
Qed.

End FileEntryPoints.

(** C6. Run on a file system that holds a well-formed specification under
    both names: [init_json] with no base raises [NameError] for [Loader],
    and [init_yaml] with a supplied base raises [UnboundLocalError] for
    [Base]; neither returns the pair its docstring promises.  Only
    [init_yaml] without a base returns a new base with a factory. *)
Theorem file_entry_points_do_not_return :
  (init_json (Cls := nat) Demo.declarative_base Demo.files Demo.json_load
     "spec.json" None Demo.w0).1
    = Raise (NameError "Loader")
  /\ (init_yaml (Cls := nat) Demo.declarative_base true Demo.files
        Demo.yaml_load "spec.yaml" (Some 7) Demo.w0).1
     = Raise (UnboundLocalError "Base")
  /\ (init_yaml (Cls := nat) Demo.declarative_base true Demo.files
        Demo.yaml_load "spec.yaml" None Demo.w0).1
     = Return (100, mkFactory Demo.schemas 100 ∅).
Proof. split; [reflexivity|]. split; reflexivity. Qed.

(** ** The properties at work on the concrete interpreter *)

Local Open Scope list_scope.

Lemma missing_components_raises_witness :
  (∅ : gmap string value) !! "components" = None
  /\ init_model_factory (Cls := nat) 7 (VDict ∅)
     = Raise (MalformedSpecificationError components_required).
Proof.
  split; [reflexivity|].
  exact (proj1 (missing_components_raises nat nat 7 ∅ eq_refl)).
Defined.

Lemma init_model_factory_succeeds_witness :
  exists f,
    init_model_factory 7 Demo.empty_schemas_spec = Return f
    /\ bound_schemas f = VDict ∅ /\ bound_base f = 7 /\ cache f = ∅
    /\ forall name w,
         (cached_model_factories Demo.mocked_model_factory f name w).1.1
         = (Demo.mocked_model_factory name (VDict ∅) 7 (ext w)).1.
Proof.
  exact (init_model_factory_succeeds nat nat nat Demo.mocked_model_factory 7
           (<["components" := VDict (<["schemas" := VDict ∅]> ∅)]> ∅)
           (<["schemas" := VDict ∅]> ∅) (VDict ∅) eq_refl eq_refl).
Defined.

Lemma distinct_names_two_invocations_witness :
  exists w2 : World nat nat,
    (call_each Demo.mocked_model_factory (mkFactory (VDict ∅) 7 ∅)
       ["table 1"; "table 2"] Demo.w0).2 = w2
    /\ invocations (trace w2)
       = [("table 1", VDict ∅, 7); ("table 2", VDict ∅, 7)]
    /\ Demo.mocked_model_factory "table 1" (VDict ∅) 7 100
       = (Return 100, 101)
    /\ Demo.mocked_model_factory "table 2" (VDict ∅) 7 101
       = (Return 101, ext w2).
Proof.
  eexists. split; [reflexivity|].
  refine (proj2 (distinct_names_two_invocations nat nat nat
                   Demo.mocked_model_factory 7 Demo.empty_schemas_spec
                   (mkFactory (VDict ∅) 7 ∅) "table 1" "table 2" Demo.w0
                   _ _ _ _ _ _ eq_refl _ eq_refl eq_refl)).
  discriminate.
Defined.

Lemma collaborator_error_propagates_witness :
  exists e x,
    Demo.model_factory "Missing" Demo.schemas 7 101 = (Raise e, x)
    /\ cached_model_factories Demo.model_factory
         (remember Demo.factory0 "Employee" 100) "Missing"
         (mkWorld 101 [EvModelFactory "Employee" Demo.schemas 7])
       = (Raise e, remember Demo.factory0 "Employee" 100,
          mkWorld x [EvModelFactory "Employee" Demo.schemas 7;
                     EvModelFactory "Missing" Demo.schemas 7]).
Proof.
  refine (collaborator_error_propagates nat nat nat Demo.model_factory
            7 Demo.spec Demo.factory0 ["Employee"] Demo.w0
            [Return 100] (remember Demo.factory0 "Employee" 100)
            (mkWorld 101 [EvModelFactory "Employee" Demo.schemas 7])
            "Missing" eq_refl _ eq_refl).
  intros x. reflexivity.
Defined.

Lemma failed_call_not_cached_witness :
  cache Demo.factory0 !! "Missing" = None
  /\ trace (cached_model_factories Demo.model_factory Demo.factory0 "Missing"
              (mkWorld 100 [invocation_of Demo.factory0 "Missing"])).2
     = [invocation_of Demo.factory0 "Missing";
        invocation_of Demo.factory0 "Missing"].
Proof.
  pose proof (failed_call_not_cached nat nat nat Demo.model_factory
                Demo.factory0 "Missing" Demo.w0
                (OtherError "SchemaNotFoundError" "Missing")
                Demo.factory0
                (mkWorld 100 [invocation_of Demo.factory0 "Missing"])
                _ _ _ eq_refl eq_refl) as (_ & Hnone & _ & Htrace & _).
  split; [exact Hnone | exact Htrace].
Defined.

(** ** The factory over its lifetime *)

Set Warnings "-clear-no-such-hyp".

Section Lifetime.

Variables W Base Cls : Type.
Variable model_factory : string -> value -> Base -> W -> result Cls * W.

Local Abbreviation call := (cached_model_factories model_factory).
Local Abbreviation calls := (call_each model_factory).
Local Abbreviation factory := (ModelFactory Base Cls).
Local Abbreviation world := (World W Base).

Implicit Types (f : factory) (w : world) (name n : string)
  (names : list string) (rs : list (result Cls)).

(** The three ways a call can go. *)
Lemma call_inv f n w r f1 w1 :
  call f n w = (r, f1, w1) ->
  (exists c, cache f !! n = Some c /\ r = Return c /\ f1 = f /\ w1 = w)
  \/ (cache f !! n = None
      /\ w1 = mkWorld w1.(ext) (trace w ++ [invocation_of f n])
      /\ model_factory n (bound_schemas f) (bound_base f) (ext w)
         = (r, ext w1)
      /\ f1 = match r with
              | Return c => remember f n c
              | Raise _ => f
              end).
Proof.
  unfold cached_model_factories, bound_model_factories.
  destruct (cache f !! n) as [c|] eqn:Hc.
  - intros [= <- <- <-]. left. eauto.
  - destruct (model_factory n (bound_schemas f) (bound_base f) (ext w))
      as [[c|e] x]; intros [= <- <- <-]; right; done.
Qed.

Lemma call_each_cons f n names w :
  calls f (n :: names) w
  = let '(r, f1, w1) := call f n w in
    let '(rs, f2, w2) := calls f1 names w1 in
    (r :: rs, f2, w2).
Proof. reflexivity. Qed.

Lemma call_cache_grows f n w r f1 w1 :
  call f n w = (r, f1, w1) -> cache f ⊆ cache f1.
Proof.
  intros Hcall.
  destruct (call_inv _ _ _ _ _ _ Hcall)
    as [(c & _ & _ & -> & _) | (Hmiss & _ & _ & ->)]; [done|].
  destruct r as [c|e]; [|done]. by apply insert_subseteq.
Qed.

Lemma call_return_cached f n w c f1 w1 :
  call f n w = (Return c, f1, w1) -> cache f1 !! n = Some c.
Proof.
  intros Hcall.
  destruct (call_inv _ _ _ _ _ _ Hcall)
    as [(c' & Hc & [= <-] & -> & _) | (_ & _ & _ & ->)]; [done|].
  apply lookup_insert_eq.
Qed.

Lemma cache_never_shrinks_aux f names w rs f1 w1 :
  calls f names w = (rs, f1, w1) ->
  cache f ⊆ cache f1
  /\ bound_schemas f1 = bound_schemas f
  /\ bound_base f1 = bound_base f
  /\ length rs = length names.
Proof.
  revert f w rs f1 w1.
  induction names as [|n ns IH]; intros f w rs f1 w1.
  - intros [= <- <- <-]. done.
  - rewrite call_each_cons.
    destruct (call f n w) as [[r fa] wa] eqn:Hcall.
    destruct (calls fa ns wa) as [[rs' fb] wb] eqn:Hrest.
    intros [= <- <- <-].
    destruct (IH _ _ _ _ _ Hrest) as (Hsub & Hs & Hb & Hlen).
    destruct (call_bound _ _ _ _ _ _ _ _ _ _ Hcall) as [Hs' Hb'].
    split; [etrans; [by eapply call_cache_grows|done]|].
    split; [congruence|]. split; [congruence|]. cbn. by rewrite Hlen.
Qed.

Lemma raises_cons (r : result Cls) rs :
  raises (r :: rs) = (if is_return r then 0 else 1) + raises rs.
Proof. unfold raises. cbn. destruct r; reflexivity. Qed.

Lemma invocation_of_bound f f1 n :
  bound_schemas f1 = bound_schemas f -> bound_base f1 = bound_base f ->
  invocation_of f1 n = invocation_of f n.
Proof. unfold invocation_of. by intros -> ->. Qed.

Lemma invocations_fmap f (t : list (event Base)) (called : list string) :
  invocations (t ++ (invocation_of f <$> called))
  = invocations t
    ++ ((fun m => (m, bound_schemas f, bound_base f)) <$> called).
Proof.
  unfold invocations. rewrite omap_app. f_equal.
  induction called as [|m ms IH]; [done|]. cbn. by rewrite IH.
Qed.

(** What a run of calls adds to the trace. *)
Lemma call_each_trace f names w rs f1 w1 :
  calls f names w = (rs, f1, w1) ->
  exists called,
    trace w1 = trace w ++ (invocation_of f <$> called)
    /\ called `sublist_of` names
    /\ Forall (fun m => cache f !! m = None) called.
Proof.
  revert f w rs f1 w1.
  induction names as [|n ns IH]; intros f w rs f1 w1.
  - intros [= <- <- <-]. exists []. rewrite app_nil_r.
    repeat split; constructor.
  - rewrite call_each_cons.
    destruct (call f n w) as [[r fa] wa] eqn:Hcall.
    destruct (calls fa ns wa) as [[rs' fb] wb] eqn:Hrest.
    intros [= <- <- <-].
    destruct (IH _ _ _ _ _ Hrest) as (called & Ht & Hsub & Hmiss).
    destruct (call_bound _ _ _ _ _ _ _ _ _ _ Hcall) as [Hs Hb].
    pose proof (call_cache_grows _ _ _ _ _ _ Hcall) as Hgrow.
    assert (Hmiss' : Forall (fun m => cache f !! m = None) called).
    { eapply Forall_impl; [exact Hmiss|]. cbn. intros m Hm.
      by eapply lookup_weaken_None. }
    assert (Hev : invocation_of fa <$> called = invocation_of f <$> called).
    { apply list_fmap_ext. intros _ m _. by apply invocation_of_bound. }
    rewrite Hev in Ht.
    destruct (call_inv _ _ _ _ _ _ Hcall)
      as [(c & _ & _ & _ & ->) | (Hnone & Hwa & _ & _)].
    + exists called. split; [done|]. split; [by constructor|done].
    + exists (n :: called). rewrite Ht, Hwa. cbn [trace fmap list_fmap].
      rewrite <- app_assoc. split; [done|].
      split; [by constructor|by constructor].
Qed.

(** X1. A run of calls leaves nothing in the trace but invocations of the
    model-building function with the bound schemas and base, for a
    subsequence of the names asked for, none of which was cached at the
    start; so there is at most one invocation per call. *)
Theorem only_model_factory_is_called f names w rs f1 w1 :
  calls f names w = (rs, f1, w1) ->
  exists called,
    trace w1 = trace w ++ (invocation_of f <$> called)
    /\ invocations (trace w1)
       = invocations (trace w)
         ++ ((fun m => (m, bound_schemas f, bound_base f)) <$> called)
    /\ called `sublist_of` names
    /\ Forall (fun m => cache f !! m = None) called
    /\ length (trace w1) <= length (trace w) + length names.
Proof.
  intros Hrun.
  destruct (call_each_trace _ _ _ _ _ _ Hrun) as (called & Ht & Hsub & Hmiss).
  exists called. split; [done|].
  split; [rewrite Ht; apply invocations_fmap|].
  split; [done|]. split; [done|].
  rewrite Ht, length_app, length_fmap.
  apply sublist_length in Hsub. lia.
Qed.

Lemma call_each_account f names w rs f1 w1 :
  calls f names w = (rs, f1, w1) ->
  length (trace w1) + size (cache f)
  = length (trace w) + raises rs + size (cache f1).
Proof.
  revert f w rs f1 w1.
  induction names as [|n ns IH]; intros f w rs f1 w1.
  - intros [= <- <- <-]. unfold raises. cbn. lia.
  - rewrite call_each_cons.
    destruct (call f n w) as [[r fa] wa] eqn:Hcall.
    destruct (calls fa ns wa) as [[rs' fb] wb] eqn:Hrest.
    intros [= <- <- <-].
    pose proof (IH _ _ _ _ _ Hrest) as Hacc. rewrite raises_cons.
    destruct (call_inv _ _ _ _ _ _ Hcall)
      as [(c & _ & -> & -> & ->) | (Hnone & Hwa & _ & Hfa)].
    + cbn. lia.
    + rewrite Hwa in Hacc. cbn [trace] in Hacc.
      rewrite length_app in Hacc. cbn [length] in Hacc.
      destruct r as [c|e]; subst fa; cbn [is_return].
      * cbn [remember cache] in Hacc.
        rewrite map_size_insert_None in Hacc by done. lia.
      * lia.
Qed.

(** X2. Every invocation of the model-building function in a run either
    raised to the caller or added one entry to the cache. *)
Theorem invocations_raise_or_are_cached f names w rs f1 w1 :
  calls f names w = (rs, f1, w1) ->
  length (invocations (trace w1)) + size (cache f)
  = length (invocations (trace w)) + raises rs + size (cache f1).
Proof.
  intros Hrun.
  pose proof (call_each_account _ _ _ _ _ _ Hrun) as Hacc.
  destruct (call_each_trace _ _ _ _ _ _ Hrun) as (called & Ht & _ & _).
  rewrite Ht in Hacc |- *.
  rewrite invocations_fmap, !length_app, !length_fmap in *. lia.
Qed.

Lemma cached_name_answers f names w rs f1 w1 n c :
  cache f !! n = Some c ->
  calls f names w = (rs, f1, w1) ->
  cache f1 !! n = Some c
  /\ forall i, names !! i = Some n -> rs !! i = Some (Return c).
Proof.
  intros Hc Hrun.
  destruct (cache_never_shrinks_aux f names w rs f1 w1 Hrun) as [Hsub _].
  split; [by eapply lookup_weaken|].
  clear Hsub. revert f w rs f1 w1 Hc Hrun.
  induction names as [|m ms IH]; intros f w rs f1 w1 Hc Hrun i;
    [by rewrite lookup_nil|].
  rewrite call_each_cons in Hrun.
  destruct (call f m w) as [[r fa] wa] eqn:Hcall.
  destruct (calls fa ms wa) as [[rs' fb] wb] eqn:Hrest.
  injection Hrun as <- <- <-.
  pose proof (call_cache_grows _ _ _ _ _ _ Hcall) as Hgrow.
  destruct i as [|i]; cbn.
  - intros [= ->]. rewrite (call_hit _ _ _ _ _ _ _ _ Hc) in Hcall.
    by injection Hcall as <- _ _.
  - apply (IH fa wa rs' fb wb); [by eapply lookup_weaken|done].
Qed.

(** X3. Once a call has returned a class for [n], every later call with
    [n] returns that class without invoking the model-building function,
    whatever was asked for in between and whether or not it raised. *)
Theorem returned_class_is_kept f n w c f1 w1 names rs f2 w2 :
  call f n w = (Return c, f1, w1) ->
  calls f1 names w1 = (rs, f2, w2) ->
  call f2 n w2 = (Return c, f2, w2)
  /\ (forall i, names !! i = Some n -> rs !! i = Some (Return c))
  /\ invocation_of f n ∉ drop (length (trace w1)) (trace w2).
Proof.
  intros Hcall Hrun.
  pose proof (call_return_cached _ _ _ _ _ _ Hcall) as Hc.
  destruct (cached_name_answers _ _ _ _ _ _ _ _ Hc Hrun) as [Hc2 Hrs].
  split; [by apply call_hit|]. split; [exact Hrs|].
  destruct (call_each_trace _ _ _ _ _ _ Hrun) as (called & Ht & _ & Hmiss).
  destruct (call_bound _ _ _ _ _ _ _ _ _ _ Hcall) as [Hs Hb].
  rewrite Ht, drop_app_length.
  intros Hin. apply list_elem_of_fmap in Hin as (m & Heq & Hm).
  rewrite (invocation_of_bound f f1) in Heq by done.
  injection Heq as <-.
  rewrite Forall_forall in Hmiss. specialize (Hmiss _ Hm). congruence.
Qed.

(** X4. The cache is never evicted or overwritten during a run of calls,
    it gains at most one entry per call, the bound schemas and base stay
    the same, and every call gets an answer. *)
Theorem cache_never_shrinks f names w rs f1 w1 :
  calls f names w = (rs, f1, w1) ->
  (forall n c, cache f !! n = Some c -> cache f1 !! n = Some c)
  /\ size (cache f1) <= size (cache f) + length names
  /\ bound_schemas f1 = bound_schemas f
  /\ bound_base f1 = bound_base f
  /\ length rs = length names.
Proof.
  intros Hrun.
  destruct (cache_never_shrinks_aux _ _ _ _ _ _ Hrun) as (Hsub & Hs & Hb & Hlen).
  split; [intros n c Hc; by eapply lookup_weaken|].
  split; [|done].
  pose proof (call_each_account _ _ _ _ _ _ Hrun) as Hacc.
  destruct (call_each_trace _ _ _ _ _ _ Hrun) as (called & Ht & Hsl & _).
  rewrite Ht, length_app, length_fmap in Hacc.
  apply sublist_length in Hsl. lia.
Qed.



Lemma call_each_all_return f names w rs f1 w1 :
  (forall n s b x, is_return (model_factory n s b x).1 = true) ->
  calls f names w = (rs, f1, w1) ->
  raises rs = 0 /\ dom (cache f1) = dom (cache f) ∪ list_to_set names.
Proof.
  intros Hret. revert f w rs f1 w1.
  induction names as [|m ms IH]; intros f w rs f1 w1.
  - intros [= <- <- <-]. split; [done|].
    cbn. by rewrite (right_id_L ∅ (∪)).
  - rewrite call_each_cons.
    destruct (call f m w) as [[r fa] wa] eqn:Hcall.
    destruct (calls fa ms wa) as [[rs' fb] wb] eqn:Hrest.
    intros [= <- <- <-].
    destruct (IH _ _ _ _ _ Hrest) as [Hzero Hdom].
    rewrite raises_cons, Hzero, Hdom. cbn [list_to_set foldr].
    destruct (call_inv _ _ _ _ _ _ Hcall)
      as [(c & Hc & -> & -> & _) | (_ & _ & Hmf & ->)].
    + split; [done|].
      assert (m ∈ dom (cache f)) by (apply elem_of_dom; eauto).
      apply set_eq. intros k.
      rewrite !elem_of_union, elem_of_singleton. naive_solver.
    + specialize (Hret m (bound_schemas f) (bound_base f) (ext w)).
      rewrite Hmf in Hret. cbn in Hret.
      destruct r as [c|e]; [|discriminate]. split; [done|].
      cbn [remember cache]. rewrite dom_insert_L.
      apply set_eq. intros k.
      rewrite !elem_of_union, elem_of_singleton. naive_solver.
Qed.

(** X6. With a model-building function that returns for every name, as
    the mock of the integration tests does, a fresh factory invokes it
    exactly as many times as there are distinct names among the calls,
    caches exactly those names, and no call raises. *)
Theorem mocked_model_factory_call_count base spec f names w rs f1 w1 :
  (forall n s b x, is_return (model_factory n s b x).1 = true) ->
  init_model_factory base spec = Return f ->
  calls f names w = (rs, f1, w1) ->
  length (invocations (trace w1))
  = length (invocations (trace w)) + size (list_to_set names : gset string)
  /\ dom (cache f1) = list_to_set names
  /\ raises rs = 0.
Proof.
  intros Hret Hinit Hrun.
  destruct (init_model_factory_fresh _ _ _ _ _ Hinit) as [Hempty _].
  destruct (call_each_all_return _ _ _ _ _ _ Hret Hrun) as [Hzero Hdom].
  rewrite Hempty, dom_empty_L, (left_id_L ∅ (∪)) in Hdom.
  pose proof (call_each_account _ _ _ _ _ _ Hrun) as Hacc.
  destruct (call_each_trace _ _ _ _ _ _ Hrun) as (called & Ht & _ & _).
  rewrite Ht, Hzero, Hempty, map_size_empty, length_app, length_fmap in Hacc.
  split; [|done].
  rewrite Ht, invocations_fmap, length_app, length_fmap.
  rewrite <- Hdom, size_dom. lia.
Qed.

(** *** Calls with the same name *)

Lemma invoked_snoc f n m (t : list (event Base)) :
  invoked n (t ++ [invocation_of f m])
  = invoked n t + (if String.eqb m n then 1 else 0).
Proof.
  unfold invoked, invocation_of. rewrite invocations_snoc.
  rewrite List.filter_app, length_app. cbn.
  destruct (String.eqb m n); reflexivity.
Qed.

Lemma holds_remember f n m (c : Cls) :
  cache f !! m = None ->
  holds (remember f m c) n
  = holds f n + (if String.eqb m n then 1 else 0).
Proof.
  intros Hmiss. unfold holds. cbn [remember cache].
  destruct (String.eqb_spec m n) as [<- | Hne].
  - rewrite lookup_insert_eq, Hmiss. reflexivity.
  - rewrite lookup_insert_ne by done. destruct (cache f !! n); lia.
Qed.

(** Name by name: what a run invokes is what raised plus what it
    cached. *)
Lemma call_each_account_for f names w rs f1 w1 n :
  calls f names w = (rs, f1, w1) ->
  invoked n (trace w1) + holds f n
  = invoked n (trace w) + raised_for n names rs + holds f1 n.
Proof.
  revert f w rs f1 w1.
  induction names as [|m ms IH]; intros f w rs f1 w1.
  - intros [= <- <- <-]. cbn. lia.
  - rewrite call_each_cons.
    destruct (call f m w) as [[r fa] wa] eqn:Hcall.
    destruct (calls fa ms wa) as [[rs' fb] wb] eqn:Hrest.
    intros [= <- <- <-].
    pose proof (IH _ _ _ _ _ Hrest) as Hacc. cbn [raised_for].
    destruct (call_inv _ _ _ _ _ _ Hcall)
      as [(c & _ & -> & -> & ->) | (Hnone & Hwa & _ & Hfa)].
    + cbn [is_return negb]. rewrite andb_false_r. lia.
    + rewrite Hwa in Hacc. cbn [trace] in Hacc.
      rewrite invoked_snoc in Hacc.
      destruct r as [c|e]; subst fa; cbn [is_return negb].
      * rewrite holds_remember in Hacc by done.
        rewrite andb_false_r. lia.
      * rewrite andb_true_r. lia.
Qed.

(** What a call of a run returned is what the cache holds at its end. *)
Lemma call_each_returned f names w rs f1 w1 i m c :
  calls f names w = (rs, f1, w1) ->
  names !! i = Some m ->
  rs !! i = Some (Return c) ->
  cache f1 !! m = Some c.
Proof.
  revert f w rs f1 w1 i.
  induction names as [|k ks IH]; intros f w rs f1 w1 i;
    [by rewrite lookup_nil|].
  rewrite call_each_cons.
  destruct (call f k w) as [[r fa] wa] eqn:Hcall.
  destruct (calls fa ks wa) as [[rs' fb] wb] eqn:Hrest.
  intros [= <- <- <-].
  destruct i as [|i]; cbn.
  - intros [= ->] [= ->].
    pose proof (call_return_cached _ _ _ _ _ _ Hcall) as Hc.
    destruct (cache_never_shrinks_aux _ _ _ _ _ _ Hrest) as [Hsub _].
    by eapply lookup_weaken.
  - apply (IH _ _ _ _ _ _ Hrest).
Qed.

(** C1 (amended). Let [f] be the factory returned by
    [init_model_factory] and [n] a name for which the model-building
    function returns a class [c] when the first call invokes it.  Then
    two calls with [n] both return [c] and leave exactly one invocation,
    made by the first call.  Over any run of calls of the factory, two
    calls with the same name that return, return the same class, and for
    every name the number of invocations is the number of calls with that
    name that raised, plus one if the name ends up cached: apart from
    invocations that raised, at most one per name. *)
Theorem returning_name_built_once base spec f n w c x :
  init_model_factory base spec = Return f ->
  model_factory n (bound_schemas f) base (ext w) = (Return c, x) ->
  (exists f1,
     call f n w
     = (Return c, f1,
        mkWorld x (trace w ++ [EvModelFactory n (bound_schemas f) base]))
     /\ call f1 n
          (mkWorld x (trace w ++ [EvModelFactory n (bound_schemas f) base]))
        = (Return c, f1,
           mkWorld x (trace w ++ [EvModelFactory n (bound_schemas f) base])))
  /\ (forall names w0 rs f' w',
        calls f names w0 = (rs, f', w') ->
        (forall i j m ci cj,
           names !! i = Some m -> names !! j = Some m ->
           rs !! i = Some (Return ci) -> rs !! j = Some (Return cj) ->
           ci = cj)
        /\ (forall m,
              invoked m (trace w')
              = invoked m (trace w0) + raised_for m names rs + holds f' m
              /\ invoked m (trace w')
                 <= invoked m (trace w0) + raised_for m names rs + 1)).
Proof.
  intros Hinit Hbuild.
  destruct (init_model_factory_fresh _ _ _ _ _ Hinit) as [Hempty Hbase].
  assert (Hmiss : cache f !! n = None)
    by (rewrite Hempty; apply lookup_empty).
  split.
  - exists (remember f n c). rewrite <- Hbase in Hbuild |- *.
    split.
    + apply (call_miss_return _ _ _ _ _ _ _ _ _ Hmiss Hbuild).
    + apply call_hit. cbn. apply lookup_insert_eq.
  - intros names w0 rs f' w' Hrun. split.
    + intros i j m ci cj Hi Hj Hri Hrj.
      pose proof (call_each_returned _ _ _ _ _ _ _ _ _ Hrun Hi Hri) as H1.
      pose proof (call_each_returned _ _ _ _ _ _ _ _ _ Hrun Hj Hrj) as H2.
      congruence.
    + intros m.
      pose proof (call_each_account_for _ _ _ _ _ _ m Hrun) as Hacc.
      assert (Hzero : holds f m = 0)
        by (unfold holds; rewrite Hempty, lookup_empty; reflexivity).
      assert (Hone : holds f' m <= 1)
        by (unfold holds; destruct (cache f' !! m); lia).
      lia.
Qed.

End Lifetime.

(** ** Which specifications yield a factory *)

Section Construction.

Variables Base Cls : Type.

Local Abbreviation init := (init_model_factory (Base := Base) (Cls := Cls)).

Implicit Types (base : Base) (spec c : value) (d : gmap string value).

Lemma py_get_returns obj key dflt v :
  py_get obj key dflt = Return v -> exists d, obj = VDict d.
Proof. destruct obj; cbn; try discriminate. eauto. Qed.

(** X7. [init_model_factory] returns a factory exactly when the
    specification is a dictionary whose "components" is a dictionary with
    a key "schemas"; the factory is then bound to that value and to
    [base] and has an empty cache.  The [{}] defaults of the two [get]
    calls are never what the factory is bound to. *)
Theorem init_model_factory_returns_iff base spec
    (f : ModelFactory Base Cls) :
  init base spec = Return f
  <-> exists d cs schemas,
        spec = VDict d
        /\ d !! "components" = Some (VDict cs)
        /\ cs !! "schemas" = Some schemas
        /\ f = mkFactory schemas base ∅.
Proof.
  split.
  - unfold init_model_factory, rbind.
    destruct (py_in "components" spec) as [[|]|] eqn:Hin; cbn;
      try discriminate.
    destruct (py_get spec "components" (VDict ∅)) as [c|] eqn:Hget;
      try discriminate.
    destruct (py_in "schemas" c) as [[|]|] eqn:Hin2; cbn; try discriminate.
    destruct (py_get c "schemas" (VDict ∅)) as [s|] eqn:Hget2;
      try discriminate.
    intros [= <-].
    destruct (py_get_returns _ _ _ _ Hget) as [d ->].
    destruct (py_get_returns _ _ _ _ Hget2) as [cs ->].
    cbn in Hin, Hin2, Hget, Hget2.
    injection Hin as Hin. injection Hin2 as Hin2.
    apply bool_decide_eq_true_1 in Hin as [c' Hc'].
    apply bool_decide_eq_true_1 in Hin2 as [s' Hs'].
    rewrite Hc' in Hget. rewrite Hs' in Hget2. cbn in Hget, Hget2.
    injection Hget as ->. injection Hget2 as ->.
    exists d, cs, s. done.
  - intros (d & cs & schemas & -> & Hc & Hs & ->).
    rewrite init_model_factory_dict, Hc. cbn [py_in rbind py_get].
    rewrite bool_decide_eq_true_2 by eauto. by rewrite Hs.
Qed.

(** X8. A specification that is itself [None], a boolean or a number,
    or whose "components" is one of these (an empty [components:] section
    of a YAML file, say), makes [init_model_factory] raise the
    [TypeError] of the [in] test, not [MalformedSpecificationError]. *)
Theorem scalar_raises_TypeError base c d :
  is_scalar c = true ->
  (exists msg, init base c = Raise (TypeError msg))
  /\ (d !! "components" = Some c ->
      exists msg, init base (VDict d) = Raise (TypeError msg)).
Proof.
  intros Hscalar. split.
  - destruct c; try discriminate; eexists; reflexivity.
  - intros Hc. rewrite init_model_factory_dict, Hc.
    destruct c; try discriminate; eexists; reflexivity.
Qed.

(** X9. When "components" is a string or a list, the test for
    "schemas" is a substring or element test: if it fails the structural
    error for "schemas" is raised, and if it succeeds the following
    [get] raises [AttributeError]. *)
Theorem string_or_list_components base d c (found : bool) :
  d !! "components" = Some c ->
  is_scalar c = false ->
  (forall cs, c <> VDict cs) ->
  py_in "schemas" c = Return found ->
  if found
  then exists msg, init base (VDict d) = Raise (AttributeError msg)
  else init base (VDict d)
       = Raise (MalformedSpecificationError schemas_required).
Proof.
  intros Hc Hscalar Hnodict Hin.
  rewrite init_model_factory_dict, Hc. unfold rbind. rewrite Hin.
  destruct found; [|reflexivity]. cbn [negb].
  destruct c; try discriminate; try (eexists; reflexivity).
  by destruct (Hnodict d0).
Qed.

End Construction.

(** ** The file-based entry points, step by step *)

Section FileEffects.

Variables W Base Cls : Type.
Variable declarative_base : W -> Base * W.
Variable files : string -> option string.
Variable yaml_load : string -> result value.

Local Abbreviation world := (World W Base).
Local Abbreviation yaml :=
  (init_yaml (Cls := Cls) declarative_base).
Local Abbreviation entering := (after_assign declarative_base).

Implicit Types (w : world) (base : option Base) (spec_filename : string).

(** X10. With PyYAML installed and no base supplied, [init_yaml] creates a
    base, opens, parses and closes the file, and hands the parsed
    document and the new base to [init_model_factory]: it returns the
    base with the factory, or raises what [init_model_factory] raises. *)
Theorem init_yaml_delegates spec_filename w b x contents spec :
  declarative_base (ext w) = (b, x) ->
  files spec_filename = Some contents ->
  yaml_load contents = Return spec ->
  yaml true files yaml_load spec_filename None w
  = (match init_model_factory b spec with
     | Return f => Return (b, f)
     | Raise e => Raise e
     end,
     mkWorld x (trace w ++ [EvDeclarativeBase b; EvOpen spec_filename;
                            EvClose spec_filename])).
Proof.
  intros Hbase Hfile Hparse.
  unfold init_yaml, bind, with_open, lift, ret, assign_Base_if_none,
    call_declarative_base, emit, load_local, bind, ret.
  rewrite Hbase. cbn [ext trace]. rewrite Hfile, Hparse.
  rewrite <- !app_assoc. cbn [app].
  destruct (init_model_factory b spec); reflexivity.
Qed.

(** X11. [init_yaml] never returns when a base is supplied, installed
    parser or not; when the file opens and parses, what it raises is
    [UnboundLocalError] for the local [Base]. *)
Theorem init_yaml_supplied_base_never_returns
    (installed : bool) spec_filename (b : Base) w :
  (forall p,
     (yaml installed files yaml_load spec_filename (Some b) w).1 <> Return p)
  /\ (forall contents spec,
        installed = true ->
        files spec_filename = Some contents ->
        yaml_load contents = Return spec ->
        (yaml installed files yaml_load spec_filename (Some b) w).1
        = Raise (UnboundLocalError "Base")).
Proof.
  split.
  - destruct installed; [|intros p; discriminate].
    rewrite init_yaml_supplied_base.
    destruct (files spec_filename) as [contents|]; [|intros p; discriminate].
    destruct (yaml_load contents); intros p; discriminate.
  - intros contents spec -> Hfile Hparse.
    rewrite init_yaml_supplied_base, Hfile, Hparse. reflexivity.
Qed.

(** X12. An exception of the YAML parser comes out of [init_yaml]
    unchanged, after the file has been closed. *)
Theorem init_yaml_parse_error_propagates spec_filename base w contents e :
  files spec_filename = Some contents ->
  yaml_load contents = Raise e ->
  yaml true files yaml_load spec_filename base w
  = (Raise e,
     emit (EvClose spec_filename)
       (emit (EvOpen spec_filename) (entering base w))).
Proof.
  intros Hfile Hparse. unfold init_yaml.
  unfold bind at 1. cbn [ret].
  destruct (assign_Base_returns _ _ declarative_base base w) as [slot Hslot].
  unfold bind at 1. rewrite Hslot.
  unfold bind at 1. unfold with_open. rewrite Hfile.
  unfold lift. rewrite Hparse. reflexivity.
Qed.

(** X13. When the file cannot be opened, [init_yaml] raises [OSError];
    with no base supplied the declarative base has been created by
    then. *)
Theorem init_yaml_missing_file spec_filename base w :
  files spec_filename = None ->
  yaml true files yaml_load spec_filename base w
  = (Raise (OSError spec_filename),
     emit (EvOpen spec_filename) (entering base w))
  /\ (base = None ->
      trace (entering base w)
      = trace w ++ [EvDeclarativeBase (declarative_base (ext w)).1]).
Proof.
  intros Hfile. split.
  - unfold init_yaml.
    unfold bind at 1. cbn [ret].
    destruct (assign_Base_returns _ _ declarative_base base w) as [slot Hslot].
    unfold bind at 1. rewrite Hslot.
    unfold bind at 1. unfold with_open. rewrite Hfile. reflexivity.
  - intros ->.
    unfold after_assign, assign_Base_if_none, bind,
      call_declarative_base.
    destruct (declarative_base (ext w)) as [b x]. reflexivity.
Qed.

(** X14. [init_json] never calls the JSON parser: its outcome is the same
    for any two parsers.  With no base supplied it has nevertheless
    created a declarative base and opened the file by the time it
    raises. *)
Theorem init_json_parses_nothing
    (json_load1 json_load2 : string -> list string -> result value)
    spec_filename base w :
  init_json (Cls := Cls) declarative_base files json_load1 spec_filename base w
  = init_json (Cls := Cls) declarative_base files json_load2
      spec_filename base w
  /\ trace (init_json (Cls := Cls) declarative_base files json_load1
              spec_filename None w).2
     = trace w
       ++ [EvDeclarativeBase (declarative_base (ext w)).1;
           EvOpen spec_filename]
       ++ match files spec_filename with
          | Some _ => [EvClose spec_filename]
          | None => []
          end.
Proof.
  split; [by rewrite !init_json_outcome|].
  rewrite init_json_outcome.
  unfold after_assign, assign_Base_if_none, bind,
    call_declarative_base, emit.
  destruct (declarative_base (ext w)) as [b x].
  destruct (files spec_filename); cbn; rewrite <- !app_assoc; reflexivity.
Qed.

End FileEffects.

(** ** The further properties at work *)

Lemma only_model_factory_is_called_witness :
  exists called,
    trace Cases.run.2
    = trace Demo.w0 ++ (invocation_of Demo.factory0 <$> called)
    /\ invocations (trace Cases.run.2)
       = invocations (trace Demo.w0)
         ++ ((fun m => (m, Demo.schemas, 7)) <$> called)
    /\ called `sublist_of` Cases.names
    /\ Forall (fun m => cache Demo.factory0 !! m = None) called
    /\ length (trace Cases.run.2)
       <= length (trace Demo.w0) + length Cases.names.
Proof.
  exact (only_model_factory_is_called nat nat nat Cases.picky_model_factory
           Demo.factory0 Cases.names Demo.w0
           Cases.run.1.1 Cases.run.1.2 Cases.run.2 eq_refl).
Defined.

Lemma invocations_raise_or_are_cached_witness :
  length (invocations (trace Cases.run.2)) + size (cache Demo.factory0)
  = length (invocations (trace Demo.w0)) + raises Cases.run.1.1
    + size (cache Cases.run.1.2).
Proof.
  exact (invocations_raise_or_are_cached nat nat nat
           Cases.picky_model_factory Demo.factory0 Cases.names Demo.w0
           Cases.run.1.1 Cases.run.1.2 Cases.run.2 eq_refl).
Defined.

Lemma returned_class_is_kept_witness :
  Cases.first.1.1 = Return 100
  /\ cached_model_factories Cases.picky_model_factory Cases.rest.1.2 "A"
       Cases.rest.2
     = (Return 100, Cases.rest.1.2, Cases.rest.2).
Proof.
  split; [reflexivity|].
  exact (proj1 (returned_class_is_kept nat nat nat Cases.picky_model_factory
                  Demo.factory0 "A" Demo.w0 100
                  Cases.first.1.2 Cases.first.2
                  ["Broken"; "A"; "Broken"; "B"]
                  Cases.rest.1.1 Cases.rest.1.2 Cases.rest.2
                  eq_refl eq_refl)).
Defined.

Lemma cache_never_shrinks_witness :
  cache Cases.first.1.2 !! "A" = Some 100
  /\ cache Cases.rest.1.2 !! "A" = Some 100
  /\ size (cache Cases.rest.1.2) <= size (cache Cases.first.1.2) + 4.
Proof.
  pose proof (cache_never_shrinks nat nat nat Cases.picky_model_factory
                Cases.first.1.2 ["Broken"; "A"; "Broken"; "B"]
                Cases.first.2
                Cases.rest.1.1 Cases.rest.1.2 Cases.rest.2 eq_refl)
    as (Hkept & Hsize & _).
  split; [reflexivity|]. split; [exact (Hkept "A" 100 eq_refl)|exact Hsize].
Defined.


Lemma mocked_model_factory_call_count_witness :
  length (invocations (trace Cases.mocked_run.2))
  = length (invocations (trace Demo.w0))
    + size (list_to_set ["table 1"; "table 2"; "table 1"; "table 1"]
              : gset string)
  /\ dom (cache Cases.mocked_run.1.2)
     = list_to_set ["table 1"; "table 2"; "table 1"; "table 1"]
  /\ raises Cases.mocked_run.1.1 = 0.
Proof.
  exact (mocked_model_factory_call_count nat nat nat
           Demo.mocked_model_factory 7 Demo.empty_schemas_spec
           (mkFactory (VDict ∅) 7 ∅)
           ["table 1"; "table 2"; "table 1"; "table 1"] Demo.w0
           Cases.mocked_run.1.1 Cases.mocked_run.1.2 Cases.mocked_run.2
           (fun _ _ _ _ => eq_refl) eq_refl eq_refl).
Defined.

Lemma scalar_raises_TypeError_witness :
  exists msg,
    init_model_factory (Cls := nat) 7 (VDict Cases.null_components)
    = Raise (TypeError msg).
Proof.
  exact (proj2 (scalar_raises_TypeError nat nat 7 VNone
                  Cases.null_components eq_refl) eq_refl).
Defined.

Lemma string_or_list_components_witness :
  exists msg,
    init_model_factory (Cls := nat) 7 (VDict Cases.list_components)
    = Raise (AttributeError msg).
Proof.
  refine (string_or_list_components nat nat 7 Cases.list_components
            (VList [VStr "schemas"]) true eq_refl eq_refl _ eq_refl).
  intros cs. discriminate.
Defined.

Lemma init_yaml_delegates_witness :
  init_yaml Demo.declarative_base true Demo.files Demo.yaml_load
    "spec.yaml" None Demo.w0
  = (Return (100, mkFactory (Cls := nat) Demo.schemas 100 ∅),
     mkWorld 101 [EvDeclarativeBase 100; EvOpen "spec.yaml";
                  EvClose "spec.yaml"]).
Proof.
  exact (init_yaml_delegates nat nat nat Demo.declarative_base Demo.files
           Demo.yaml_load "spec.yaml" Demo.w0 100 101 "components: ..."
           Demo.spec eq_refl eq_refl eq_refl).
Defined.

Lemma init_yaml_parse_error_propagates_witness :
  init_yaml (Cls := nat) Demo.declarative_base true Demo.files
    Cases.failing_yaml_load "spec.yaml" (Some 7) Demo.w0
  = (Raise (OtherError "YAMLError" "could not parse"),
     mkWorld 100 [EvOpen "spec.yaml"; EvClose "spec.yaml"]).
Proof.
  exact (init_yaml_parse_error_propagates nat nat nat Demo.declarative_base
           Demo.files Cases.failing_yaml_load "spec.yaml" (Some 7) Demo.w0
           "components: ..." (OtherError "YAMLError" "could not parse")
           eq_refl eq_refl).
Defined.

Lemma init_yaml_missing_file_witness :
  init_yaml (Cls := nat) Demo.declarative_base true Demo.files
    Demo.yaml_load "nowhere.yaml" None Demo.w0
  = (Raise (OSError "nowhere.yaml"),
     mkWorld 101 [EvDeclarativeBase 100; EvOpen "nowhere.yaml"]).
Proof.
  exact (proj1 (init_yaml_missing_file nat nat nat Demo.declarative_base
                  Demo.files Demo.yaml_load "nowhere.yaml" None Demo.w0
                  eq_refl)).
Defined.

(** ** Inputs on which the documented behaviour does not hold *)

(** C1, as stated, fails for a name that is a key of the schemas but for
    which the model-building function raises: the failure is not cached,
    so two calls make two invocations and return no class. *)
Lemma present_name_built_twice :
  init_model_factory 7 Cases.broken_spec = Return Cases.broken_factory
  /\ (exists d, Cases.broken_schemas = VDict d /\ is_Some (d !! "Broken"))
  /\ cached_model_factories Cases.picky_model_factory Cases.broken_factory
       "Broken" Demo.w0
     = (Raise (OtherError "TypeMissingError" "Broken"), Cases.broken_factory,
        mkWorld 100 [EvModelFactory "Broken" Cases.broken_schemas 7])
  /\ cached_model_factories Cases.picky_model_factory Cases.broken_factory
       "Broken" (mkWorld 100 [EvModelFactory "Broken" Cases.broken_schemas 7])
     = (Raise (OtherError "TypeMissingError" "Broken"), Cases.broken_factory,
        mkWorld 100 [EvModelFactory "Broken" Cases.broken_schemas 7;
                     EvModelFactory "Broken" Cases.broken_schemas 7]).
Proof.
  split; [reflexivity|]. split; [|split; reflexivity].
  eexists. split; [reflexivity|]. exists (VDict ∅). reflexivity.
Qed.

Lemma returning_name_built_once_witness :
  exists f1,
    cached_model_factories Cases.picky_model_factory Demo.factory0
      "Employee" Demo.w0
    = (Return 100, f1, mkWorld 101 [EvModelFactory "Employee" Demo.schemas 7])
    /\ cached_model_factories Cases.picky_model_factory f1 "Employee"
         (mkWorld 101 [EvModelFactory "Employee" Demo.schemas 7])
       = (Return 100, f1,
          mkWorld 101 [EvModelFactory "Employee" Demo.schemas 7]).
Proof.
  exact (proj1 (returning_name_built_once nat nat nat
                  Cases.picky_model_factory 7 Demo.spec Demo.factory0
                  "Employee" Demo.w0 100 101 eq_refl eq_refl)).
Defined.

(** C4, as stated, fails when the value under "components" is [None]
    (an empty [components:] section): the key is present, the value has
    no "schemas", and the error is the [TypeError] of the [in] test. *)
Lemma null_components_raise_TypeError :
  Cases.null_components !! "components" = Some VNone
  /\ (exists msg,
        init_model_factory (Cls := nat) 7 (VDict Cases.null_components)
        = Raise (TypeError msg))
  /\ (forall msg,
        init_model_factory (Cls := nat) 7 (VDict Cases.null_components)
        <> Raise (MalformedSpecificationError msg)).
Proof.
  split; [reflexivity|]. split; [eexists; reflexivity|].
  intros msg. discriminate.
Qed.

Lemma lacking_schemas_raises_witness :
  init_model_factory (Cls := nat) 7
    (VDict (<["components" := VDict ∅]> ∅))
  = Raise (MalformedSpecificationError schemas_required).
Proof.
  exact (proj1 (lacking_schemas_raises nat nat 7
                  (<["components" := VDict ∅]> ∅) (VDict ∅)
                  eq_refl eq_refl)).
Defined.
